(** * Win32StringUtils: hexadecimal formatters, printf-style formatting and
      string resources of [StringUtils.h], embedded in Rocq.

    Integers are modelled as [Z] with the conversions of the C++ types
    written out; a [std::wstring] is the list of its UTF-16 code units. *)

From Stdlib Require Import ZArith List Bool Lia Ascii String DecimalString.
From stdpp Require Import gmap.
Import ListNotations.

Local Open Scope Z_scope.

(** ** Machine types *)

Module Win32.

(** [BYTE] is [unsigned char], [WORD] is [unsigned short], [DWORD] is
    [unsigned long] (32 bits on Windows), [wchar_t] is a 16-bit unsigned
    code unit, [int] and [HRESULT] are signed 32-bit. *)
Definition to_BYTE (x : Z) : Z := x mod 256.
Definition to_WORD (x : Z) : Z := x mod 65536.
Definition to_DWORD (x : Z) : Z := x mod 4294967296.
Definition to_wchar_t (x : Z) : Z := x mod 65536.
Definition to_int (x : Z) : Z := (x + 2147483648) mod 4294967296 - 2147483648.

Definition INT_MAX : Z := 2147483647.
Definition INT_MIN : Z := -2147483648.

Definition is_BYTE (x : Z) : Prop := 0 <= x < 256.
Definition is_WORD (x : Z) : Prop := 0 <= x < 65536.
Definition is_DWORD (x : Z) : Prop := 0 <= x < 4294967296.
Definition is_HRESULT (x : Z) : Prop := INT_MIN <= x <= INT_MAX.

Abbreviation wchar_t := Z (only parsing).
Abbreviation wstring := (list Z) (only parsing).

(** The wide literal of a character and of a string (ASCII only). *)
Definition Lc (a : ascii) : wchar_t := Z.of_N (N_of_ascii a).
Definition L (s : string) : wstring := List.map Lc (list_ascii_of_string s).

Definition NUL : wchar_t := 0.

(** [std::wstring(ptr, count)]: the first [count] units found at [ptr]. *)
Definition std_wstring (ptr : list wchar_t) (count : nat) : wstring :=
  firstn count ptr.

End Win32.
Import Win32.

(** ** The hexadecimal formatters *)

Module detail.

(** [detail::FormatLowNibble]: the hex digit of the low nibble of a byte. *)
Definition FormatLowNibble (b : Z) : wchar_t :=
  let lowNibble := to_BYTE (Z.land b 0x0F) in
  if (0 <=? lowNibble) && (lowNibble <? 10)
  then to_wchar_t (Lc "0" + lowNibble)
  else to_wchar_t (Lc "A" + (lowNibble - 10)).

End detail.

(** [FormatByte]: the argument of the first call, [b >> 4], is an [int]
    converted back to [BYTE]. *)
Definition FormatByte (b : Z) : wstring :=
  let hexDigits :=
    [ detail.FormatLowNibble (to_BYTE (Z.shiftr b 4));
      detail.FormatLowNibble b ] in
  std_wstring hexDigits 2.

Definition FormatWord (w : Z) : wstring :=
  let highByte := to_BYTE (Z.shiftr w 8) in
  let lowByte := to_BYTE (Z.land w 0x00FF) in
  let hexDigits :=
    [ detail.FormatLowNibble (to_BYTE (Z.shiftr highByte 4));
      detail.FormatLowNibble highByte;
      detail.FormatLowNibble (to_BYTE (Z.shiftr lowByte 4));
      detail.FormatLowNibble lowByte ] in
  std_wstring hexDigits 4.

Definition FormatDword (dw : Z) : wstring :=
  let lowWord := to_WORD (Z.land dw 0x0000FFFF) in
  let highWord := to_WORD (Z.shiftr dw 16) in
  FormatWord highWord ++ FormatWord lowWord.

(** [FormatHResult]: the signed [HRESULT] is converted to [DWORD] at the
    call of [FormatDword]. *)
Definition FormatHResult (hr : Z) : wstring :=
  FormatDword (to_DWORD hr).

(** Status codes of [winerror.h] used by the tests: [S_OK] and
    [E_INVALIDARG], the latter being [0x80070057] read as a signed value. *)
Definition S_OK : Z := 0.
Definition E_INVALIDARG : Z := to_int 0x80070057.

(** ** Reference rendering

    The standard fixed-width uppercase hexadecimal rendering, as the test
    suite obtains it from ["%02X"], ["%04X"] and ["%08X"]: the digits of
    the value in base 16, most significant first. *)

Definition hex_alphabet : wstring := L "0123456789ABCDEF".

Definition spec_hex_digit (v : Z) : wchar_t :=
  nth (Z.to_nat v) hex_alphabet NUL.

Fixpoint spec_hex (digits : nat) (n : Z) : wstring :=
  match digits with
  | O => []
  | S k => spec_hex k (n / 16) ++ [spec_hex_digit (n mod 16)]
  end.

Definition is_hex_char (c : wchar_t) : Prop :=
  Lc "0" <= c <= Lc "9" \/ Lc "A" <= c <= Lc "F".

(** Reading a hex text back: the value of a digit and of a digit string. *)
Definition hex_digit_value (c : wchar_t) : Z :=
  if c <? Lc "A" then c - Lc "0" else c - Lc "A" + 10.

Definition hex_value (s : wstring) : Z :=
  fold_left (fun acc c => 16 * acc + hex_digit_value c) s 0.


(** ** Calls against the process

    The process-wide state a call can reach: the C runtime's [errno] and
    the string tables of the loaded modules, keyed by module handle and
    string identifier.  A call returns, throws, or has undefined
    behaviour; an undefined call leaves no state to observe. *)

Record process : Type := mkProcess {
  crt_errno : Z;
  string_table : gmap (Z * Z) wstring
}.

Definition set_errno (e : Z) (p : process) : process :=
  {| crt_errno := e; string_table := string_table p |}.

Definition EINVAL : Z := 22.

Inductive exception : Type := length_error.

Inductive result (A : Type) : Type :=
| Returns (a : A) (p : process)
| Throws (e : exception) (p : process)
| Undefined.

Arguments Returns {A} a p.
Arguments Throws {A} e p.
Arguments Undefined {A}.

Definition M (A : Type) : Type := process -> result A.

Definition ret {A} (a : A) : M A := fun p => Returns a p.

Definition bind {A B} (m : M A) (k : A -> M B) : M B :=
  fun p =>
    match m p with
    | Returns a p' => k a p'
    | Throws e p' => Throws e p'
    | Undefined => Undefined
    end.

Declare Scope call_scope.
Delimit Scope call_scope with call.
Notation "'do' x <- m ; k" := (bind m (fun x => k))
  (at level 10, x name, m at level 100, k at level 200) : call_scope.

(** ** [std::wstring] operations used by [StringPrintf] *)

(** [max_size()] of a [std::wstring] and the width of [size_t], for a
    64-bit build. *)
Definition wstring_max_size : Z := 9223372036854775806.
Definition to_size_t (x : Z) : Z := x mod 18446744073709551616.

(** [s.resize(n)]: throws [std::length_error] beyond [max_size()],
    otherwise truncates or pads with NUL units. *)
Definition resize (s : wstring) (n : Z) : M wstring :=
  fun p =>
    if wstring_max_size <? n then Throws length_error p
    else Returns (firstn (Z.to_nat n) s ++
                  repeat NUL (Z.to_nat n - length s)) p.

(** [s.pop_back()]: undefined on an empty string. *)
Definition pop_back (s : wstring) : M wstring :=
  fun p =>
    match s with
    | [] => Undefined
    | _ :: _ => Returns (removelast s) p
    end.

(** ** The printf family of the C runtime *)

(** The variadic arguments, as a list of tagged values. *)
Inductive printf_arg : Type :=
| ArgInt (n : Z)
| ArgWStr (s : wstring).

Section Formatting.

(** The text a wide printf-style call produces for a format template and
    its arguments, [None] where the template is malformed or an argument
    does not fit its placeholder. *)
Variable format_text : wstring -> list printf_arg -> option wstring.

(** Modelled from the spec: the measuring primitive [_vscwprintf] of the C
    runtime, declared in [<stdio.h>] and not part of the sources.  It
    computes the exact number of characters the rendered output occupies,
    excluding any terminator, writes nothing, and reports a failure by a
    negative count (with [errno] set). *)
Definition _vscwprintf (format : wstring) (args : list printf_arg) : M Z :=
  fun p =>
    match format_text format args with
    | Some t =>
        if Z.of_nat (length t) <=? INT_MAX
        then Returns (Z.of_nat (length t)) p
        else Returns (-1) (set_errno EINVAL p)
    | None => Returns (-1) (set_errno EINVAL p)
    end.

(** Modelled from the spec: the bounded, truncating rendering primitive
    [_vsnwprintf_s] of the C runtime called with [_TRUNCATE], declared in
    [<stdio.h>] and not part of the sources.  It never writes beyond
    [sizeOfBuffer] units, appends a terminating NUL to what it writes, and
    returns the number of characters written or -1 on failure or
    truncation.  The result is the new content of the buffer and the
    returned count. *)
Definition _vsnwprintf_s (buffer : list wchar_t) (sizeOfBuffer : Z)
    (format : wstring) (args : list printf_arg) : M (list wchar_t * Z) :=
  fun p =>
    if sizeOfBuffer <=? 0 then Returns (buffer, -1) (set_errno EINVAL p)
    else
      match format_text format args with
      | None => Returns (NUL :: skipn 1 buffer, -1) (set_errno EINVAL p)
      | Some t =>
          if Z.of_nat (length t) <? sizeOfBuffer
          then Returns (t ++ NUL :: skipn (S (length t)) buffer,
                        Z.of_nat (length t)) p
          else Returns (firstn (Z.to_nat (sizeOfBuffer - 1)) t ++
                        NUL :: skipn (Z.to_nat sizeOfBuffer) buffer, -1) p
      end.

(** [StringPrintf]: measure, make room, render, chop the terminator.  The
    sum [_vscwprintf(...) + 1] is an [int] (wrapping where it overflows, as
    the Microsoft compiler makes it), converted to [size_t] for [resize];
    neither count returned by the runtime is checked. *)
Definition StringPrintf (format : wstring) (args : list printf_arg)
    : M wstring :=
  (do n <- _vscwprintf format args;
   let length := to_int (n + 1) in
   do result <- resize [] (to_size_t length);
   do rendered <- _vsnwprintf_s result length format args;
   pop_back (fst rendered))%call.

(** A call of one of the formatters. *)
Inductive formatter_call : Type :=
| CallFormatByte (b : Z)
| CallFormatWord (w : Z)
| CallFormatDword (dw : Z)
| CallFormatHResult (hr : Z)
| CallStringPrintf (format : wstring) (args : list printf_arg).

Definition run (c : formatter_call) : M wstring :=
  match c with
  | CallFormatByte b => ret (FormatByte b)
  | CallFormatWord w => ret (FormatWord w)
  | CallFormatDword dw => ret (FormatDword dw)
  | CallFormatHResult hr => ret (FormatHResult hr)
  | CallStringPrintf format args => StringPrintf format args
  end.

End Formatting.

(** ** String resources *)

(** Modelled from the spec: the platform's [::LoadString], declared in
    [<Windows.h>] and not part of the sources.  It returns the length of
    the string resource, or 0 when the module has no such string; with a
    buffer size of 0 the buffer receives a read-only pointer to the stored
    text itself, otherwise a copy cut to the buffer size.  The result is
    the returned length and the text the buffer gives access to. *)
Definition LoadString (hInstance : Z) (uID : Z) (cchBufferMax : Z)
    : M (Z * list wchar_t) :=
  fun p =>
    match string_table p !! (hInstance, uID) with
    | Some text =>
        if cchBufferMax =? 0
        then Returns (Z.of_nat (length text), text) p
        else
          let copied := firstn (Z.to_nat (cchBufferMax - 1)) text in
          Returns (Z.of_nat (length copied), copied) p
    | None => Returns (0, []) p
    end.

Definition LoadStringResource (hInstance : Z) (stringId : Z) : M wstring :=
  (do loaded <- LoadString hInstance stringId 0;
   let len := fst loaded in
   let buffer := snd loaded in
   if negb (len =? 0)
   then ret (std_wstring buffer (Z.to_nat len))
   else ret [])%call.

(** ** A concrete rendering function

    Modelled from the spec: the rendering of the host platform's
    printf-style convention, which is not part of the sources, for the
    fragment the examples use: plain text, [%%], and the conversions
    [%s] (wide string), [%d] (signed decimal) and [%X] (uppercase
    hexadecimal) with an optional [0] flag and minimum width.  Anything
    else is a malformed template, and an argument of the wrong kind or a
    missing argument makes the call fail. *)

Inductive conv_state : Type :=
| Text
| Spec (zero : bool) (width : option Z).

Definition is_digit (c : wchar_t) : bool :=
  (Lc "0" <=? c) && (c <=? Lc "9").

Definition pad_left (fill : wchar_t) (width : Z) (body : wstring) : wstring :=
  repeat fill (Z.to_nat (width - Z.of_nat (length body))) ++ body.

Definition decimal_digits (n : Z) : wstring :=
  L (NilZero.string_of_uint (N.to_uint (Z.to_N n))).

Fixpoint upper_hex_digits (fuel : nat) (n : Z) : wstring :=
  match fuel with
  | O => []
  | S fuel' =>
      (if n / 16 =? 0 then [] else upper_hex_digits fuel' (n / 16)) ++
      [spec_hex_digit (n mod 16)]
  end.

Definition render_number (zero : bool) (width : option Z)
    (sign digits : wstring) : wstring :=
  let w := default 0 width in
  if zero
  then sign ++ pad_left (Lc "0") (w - Z.of_nat (length sign)) digits
  else pad_left (Lc " ") w (sign ++ digits).

Definition render_conversion (c : wchar_t) (zero : bool) (width : option Z)
    (a : printf_arg) : option wstring :=
  match a with
  | ArgWStr s =>
      if c =? Lc "s" then Some (pad_left (Lc " ") (default 0 width) s)
      else None
  | ArgInt n =>
      if c =? Lc "d" then
        let v := to_int n in
        Some (render_number zero width (if v <? 0 then L "-" else [])
                (decimal_digits (Z.abs v)))
      else if c =? Lc "X" then
        Some (render_number zero width [] (upper_hex_digits 8 (to_DWORD n)))
      else None
  end.

Fixpoint wprintf_from (st : conv_state) (format : wstring)
    (args : list printf_arg) : option wstring :=
  match format with
  | [] => match st with Text => Some [] | Spec _ _ => None end
  | c :: rest =>
      match st with
      | Text =>
          if c =? Lc "%" then wprintf_from (Spec false None) rest args
          else cons c <$> wprintf_from Text rest args
      | Spec zero width =>
          if (c =? Lc "%") && negb zero && bool_decide (width = None)
          then cons c <$> wprintf_from Text rest args
          else if (c =? Lc "0") && bool_decide (width = None)
          then wprintf_from (Spec true None) rest args
          else if is_digit c
          then wprintf_from
                 (Spec zero (Some (10 * default 0 width + (c - Lc "0"))))
                 rest args
          else
            match args with
            | [] => None
            | a :: args' =>
                match render_conversion c zero width a with
                | Some piece => app piece <$> wprintf_from Text rest args'
                | None => None
                end
            end
      end
  end.

Definition wprintf_text (format : wstring) (args : list printf_arg)
    : option wstring :=
  wprintf_from Text format args.

(** A process with errno clear and one module, of handle [0x400000], that
    holds two strings, the second of them empty. *)
Definition sample_process : process :=
  {| crt_errno := 0;
     string_table :=
       <[ (0x400000, 101) := L "Test string" ]>
         (<[ (0x400000, 102) := [] ]> ∅) |}.

(** ** Order of strings *)

(** [operator<] of [std::wstring]: the lexicographic order of the code
    units, a proper prefix coming first. *)
Fixpoint wstring_ltb (s t : wstring) : bool :=
  match s, t with
  | _, [] => false
  | [], _ :: _ => true
  | c :: s', d :: t' => (c <? d) || ((c =? d) && wstring_ltb s' t')
  end.

(** ** The test suite of [StringUtilsTest.cpp] *)

(** ATL's [CString], which the tests use as the reference, is a library
    class outside the sources; it is modelled by its documented behaviour.
    A [CString] is its content; [GetLength] is the number of units,
    [GetString] points to the content followed by a terminating NUL, and
    [Format] renders in the printf-style convention, here by
    [wprintf_text]. *)
Definition CString_GetLength (s : list wchar_t) : Z := Z.of_nat (length s).

Definition CString_GetString (s : list wchar_t) : list wchar_t := s ++ [NUL].

Definition CString_Format (format : wstring) (args : list printf_arg)
    : list wchar_t :=
  match wprintf_text format args with
  | Some text => text
  | None => []
  end.

(** The NUL-terminated string found at a pointer, and [operator==] of a
    [std::wstring] with such a pointer. *)
Fixpoint c_string (ptr : list wchar_t) : wstring :=
  match ptr with
  | [] => []
  | c :: rest => if c =? NUL then [] else c :: c_string rest
  end.

Definition wstring_eq_ptr (s : wstring) (ptr : list wchar_t) : bool :=
  bool_decide (s = c_string ptr).

Definition ExpectedFormatByte (b : Z) : list wchar_t :=
  CString_Format (L "%02X") [ArgInt b].

Definition ExpectedFormatWord (w : Z) : list wchar_t :=
  CString_Format (L "%04X") [ArgInt w].

Definition ExpectedFormatDword (dw : Z) : list wchar_t :=
  CString_Format (L "%08X") [ArgInt dw].

Definition ExpectedFormatHResult (hr : Z) : list wchar_t :=
  CString_Format (L "%08X") [ArgInt hr].

Definition Equal (s1 : wstring) (s2 : list wchar_t) : bool :=
  (Z.of_nat (length s1) =? to_size_t (CString_GetLength s2)) &&
  wstring_eq_ptr s1 (CString_GetString s2).

(** A test function runs to its end or throws [std::logic_error]. *)
Inductive test_outcome : Type :=
| Passed
| Threw (what : string).

Definition Check (condition : bool) (message : string) : test_outcome :=
  if negb condition then Threw message else Passed.

(** A [for] loop over the values of its counter, left at the first throw. *)
Fixpoint for_each (counter : list Z) (body : Z -> test_outcome)
    : test_outcome :=
  match counter with
  | [] => Passed
  | i :: rest =>
      match body i with
      | Passed => for_each rest body
      | Threw what => Threw what
      end
  end.

(** [TestFormatByte] and [TestFormatWord], with the formatter under test
    as a parameter; the tests themselves are the instances at [FormatByte]
    and [FormatWord].  In [TestFormatWord] the counter is cast to [BYTE]
    before it is stored in the [WORD]. *)
Definition TestFormatByte_with (format : Z -> wstring) : test_outcome :=
  for_each (seqZ 0 256) (fun i =>
    let b := to_BYTE i in
    let s1 := format b in
    let s2 := ExpectedFormatByte b in
    Check (Equal s1 s2) "FormatByte result differs from expected result.").

Definition TestFormatByte : test_outcome := TestFormatByte_with FormatByte.

Definition TestFormatWord_with (format : Z -> wstring) : test_outcome :=
  let maxWord := to_int 65535 in
  for_each (seqZ 0 (maxWord + 1)) (fun i =>
    let w := to_WORD (to_BYTE i) in
    let s1 := format w in
    let s2 := ExpectedFormatWord w in
    Check (Equal s1 s2) "FormatWord result differs from expected result.").

Definition TestFormatWord : test_outcome := TestFormatWord_with FormatWord.

(** Further status codes of [winerror.h] used by [TestFormatHResult]. *)
Definition E_FAIL : Z := to_int 0x80004005.
Definition E_OUTOFMEMORY : Z := to_int 0x8007000E.

Definition TestFormatDword : test_outcome :=
  let testDwords :=
    [0x00000000; 0xFFFFFFFF; 0x0000FFFF; 0xFFFF0000; 0x12345678; 0xABCDEFAB] in
  for_each testDwords (fun dw =>
    let s1 := FormatDword dw in
    let s2 := ExpectedFormatDword dw in
    Check (Equal s1 s2) "FormatDword result differs from expected result.").

Definition TestFormatHResult : test_outcome :=
  let testHResults := [S_OK; E_FAIL; E_INVALIDARG; E_OUTOFMEMORY] in
  for_each testHResults (fun hr =>
    let s1 := FormatHResult hr in
    let s2 := ExpectedFormatHResult hr in
    Check (Equal s1 s2) "FormatHResult result differs from expected result.").

(** A test that calls into the process ends with an outcome and the
    process state it leaves, or has no defined end.  An exception of the
    library ([std::length_error]) leaves the test as a throw does. *)
Definition test_run : Type := process -> option (test_outcome * process).

Definition calling {A} (m : M A) (k : A -> test_run) : test_run :=
  fun p =>
    match m p with
    | Returns a p' => k a p'
    | Throws length_error p' => Some (Threw "string too long", p')
    | Undefined => None
    end.

Definition checked (outcome : test_outcome) : test_run :=
  fun p => Some (outcome, p).

Definition TestStringPrintf : test_run :=
  calling
    (StringPrintf wprintf_text (L "Testing StringPrintf %s %d 0x%08X.")
       [ArgWStr (L "Hello"); ArgInt 10; ArgInt E_INVALIDARG])
    (fun s1 =>
       let s2 := CString_Format (L "Testing StringPrintf %s %d 0x%08X.")
                   [ArgWStr (L "Hello"); ArgInt 10; ArgInt E_INVALIDARG] in
       checked (Check (Equal s1 s2)
                  "StringPrintf result differs from expected result.")).

Section ResourceTest.

(** The string identifier of [resource.h], which is not among the
    sources, and the handle [GetModuleHandle(nullptr)] gives: that of the
    running executable. *)
Variable IDS_TEST_STRING : Z.
Variable hExecutable : Z.

(** [CString::LoadString(id)]: the string stored under [id] in the
    executable, or the string left empty when there is none. *)
Definition CString_LoadString (id : Z) : M (list wchar_t) :=
  fun p =>
    match string_table p !! (hExecutable, id) with
    | Some text => Returns text p
    | None => Returns [] p
    end.

Definition TestLoadStringResource : test_run :=
  calling (LoadStringResource hExecutable IDS_TEST_STRING) (fun resString1 =>
  calling (CString_LoadString IDS_TEST_STRING) (fun resString2 =>
  checked (Check (Equal resString1 resString2)
             "LoadStringResource result differs from expected result."))).

(** [main]: the tests in turn, the first throw ending the run; the exit
    code is [kExitOk] when all ran to their end and [kExitError] when one
    threw. *)
Definition kExitOk : Z := 0.
Definition kExitError : Z := 1.

Definition and_then (first rest : test_run) : test_run :=
  fun p =>
    match first p with
    | Some (Passed, p') => rest p'
    | Some (Threw what, p') => Some (Threw what, p')
    | None => None
    end.

Definition all_tests : test_run :=
  and_then (checked TestFormatByte)
    (and_then (checked TestFormatWord)
       (and_then (checked TestFormatDword)
          (and_then (checked TestFormatHResult)
             (and_then TestStringPrintf TestLoadStringResource)))).

Definition exit_code (run : option (test_outcome * process)) : option Z :=
  match run with
  | Some (Passed, _) => Some kExitOk
  | Some (Threw _, _) => Some kExitError
  | None => None
  end.

Definition main (p : process) : option Z := exit_code (all_tests p).

End ResourceTest.

(** ** Facts about the nibble formatter *)

Lemma low_nibble_range (b : Z) : 0 <= Z.land b 0x0F <= 15.
Proof.
  change (Z.land b 0x0F) with (Z.land b (Z.ones 4)).
  rewrite Z.land_ones by lia.
  change (2 ^ 4) with 16. pose proof (Z.mod_pos_bound b 16). lia.
Qed.

Lemma low_nibble_mod (b : Z) : to_BYTE (Z.land b 0x0F) = b mod 16.
Proof.
  unfold to_BYTE. change (Z.land b 0x0F) with (Z.land b (Z.ones 4)).
  rewrite Z.land_ones by lia.
  change (2 ^ 4) with 16.
  pose proof (Z.mod_pos_bound b 16). rewrite Z.mod_small; lia.
Qed.

Lemma FormatLowNibble_digit (b : Z) :
  detail.FormatLowNibble b = spec_hex_digit (b mod 16).
Proof.
  unfold detail.FormatLowNibble. rewrite low_nibble_mod.
  pose proof (Z.mod_pos_bound b 16 ltac:(lia)) as Hr.
  assert (Hc : b mod 16 = 0 \/ b mod 16 = 1 \/ b mod 16 = 2 \/ b mod 16 = 3 \/
               b mod 16 = 4 \/ b mod 16 = 5 \/ b mod 16 = 6 \/ b mod 16 = 7 \/
               b mod 16 = 8 \/ b mod 16 = 9 \/ b mod 16 = 10 \/ b mod 16 = 11 \/
               b mod 16 = 12 \/ b mod 16 = 13 \/ b mod 16 = 14 \/ b mod 16 = 15)
    by lia.
  repeat (destruct Hc as [-> | Hc]; [reflexivity |]).
  rewrite Hc. reflexivity.
Qed.

Ltac zdiv := Z.to_euclidean_division_equations; lia.

Ltac nibble_cases v :=
  let Hc := fresh "Hc" in
  assert (Hc : v = 0 \/ v = 1 \/ v = 2 \/ v = 3 \/ v = 4 \/ v = 5 \/
               v = 6 \/ v = 7 \/ v = 8 \/ v = 9 \/ v = 10 \/ v = 11 \/
               v = 12 \/ v = 13 \/ v = 14 \/ v = 15) by lia;
  repeat (destruct Hc as [-> | Hc]); [.. | rewrite Hc].

Lemma spec_hex_digit_is_hex (v : Z) :
  0 <= v < 16 -> is_hex_char (spec_hex_digit v).
Proof.
  intros Hv. unfold is_hex_char.
  nibble_cases v; vm_compute; intuition congruence.
Qed.

Lemma hex_digit_value_spec (v : Z) :
  0 <= v < 16 -> hex_digit_value (spec_hex_digit v) = v.
Proof. intros Hv. nibble_cases v; reflexivity. Qed.

Lemma spec_hex_length (k : nat) (n : Z) : length (spec_hex k n) = k.
Proof.
  revert n. induction k as [| k IH]; intros n; cbn [spec_hex]; [reflexivity |].
  rewrite length_app, IH. cbn. lia.
Qed.

Lemma spec_hex_is_hex (k : nat) (n : Z) : Forall is_hex_char (spec_hex k n).
Proof.
  revert n. induction k as [| k IH]; intros n; cbn [spec_hex].
  - constructor.
  - apply Forall_app. split; [apply IH |].
    constructor; [| constructor].
    apply spec_hex_digit_is_hex. apply Z.mod_pos_bound. lia.
Qed.

Lemma hex_value_snoc (s : wstring) (c : wchar_t) :
  hex_value (s ++ [c]) = 16 * hex_value s + hex_digit_value c.
Proof. unfold hex_value. rewrite fold_left_app. reflexivity. Qed.

Lemma hex_value_spec_hex (k : nat) (n : Z) :
  hex_value (spec_hex k n) = n mod 16 ^ Z.of_nat k.
Proof.
  revert n. induction k as [| k IH]; intros n.
  - cbn. symmetry. apply Z.mod_1_r.
  - cbn [spec_hex]. rewrite hex_value_snoc, IH.
    rewrite hex_digit_value_spec by (apply Z.mod_pos_bound; lia).
    rewrite Nat2Z.inj_succ, Z.pow_succ_r by lia.
    assert (Hp : 0 < 16 ^ Z.of_nat k) by (apply Z.pow_pos_nonneg; lia).
    rewrite Z.rem_mul_r by lia. lia.
Qed.

(** The formatters written as digit lists, for every integer argument. *)

Ltac same_digits :=
  repeat match goal with
         | |- cons _ _ = cons _ _ => apply (f_equal2 cons)
         | |- spec_hex_digit _ = spec_hex_digit _ =>
             apply (f_equal spec_hex_digit); zdiv
         | |- @nil _ = @nil _ => reflexivity
         end.

Lemma to_BYTE_land (x : Z) : to_BYTE (Z.land x 0x00FF) = x mod 256.
Proof.
  unfold to_BYTE. change (Z.land x 0x00FF) with (Z.land x (Z.ones 8)).
  rewrite Z.land_ones by lia. apply Z.mod_mod. discriminate.
Qed.

Lemma to_WORD_land (x : Z) : to_WORD (Z.land x 0x0000FFFF) = x mod 65536.
Proof.
  unfold to_WORD. change (Z.land x 0x0000FFFF) with (Z.land x (Z.ones 16)).
  rewrite Z.land_ones by lia. apply Z.mod_mod. discriminate.
Qed.

Lemma FormatByte_spec_hex (b : Z) : FormatByte b = spec_hex 2 b.
Proof.
  unfold FormatByte, std_wstring. cbn [firstn spec_hex app].
  rewrite !FormatLowNibble_digit. unfold to_BYTE.
  rewrite Z.shiftr_div_pow2 by lia. change (2 ^ 4) with 16.
  same_digits.
Qed.

Lemma FormatWord_bytes (w : Z) :
  FormatWord w =
  FormatByte (to_BYTE (Z.shiftr w 8)) ++ FormatByte (to_BYTE (Z.land w 0x00FF)).
Proof. reflexivity. Qed.

Lemma FormatWord_spec_hex (w : Z) : FormatWord w = spec_hex 4 w.
Proof.
  rewrite FormatWord_bytes, !FormatByte_spec_hex, to_BYTE_land.
  unfold to_BYTE. rewrite Z.shiftr_div_pow2 by lia.
  change (2 ^ 8) with 256. cbn [spec_hex app].
  same_digits.
Qed.

Lemma FormatDword_spec_hex (dw : Z) : FormatDword dw = spec_hex 8 dw.
Proof.
  unfold FormatDword. rewrite !FormatWord_spec_hex, to_WORD_land.
  unfold to_WORD. rewrite Z.shiftr_div_pow2 by lia.
  change (2 ^ 16) with 65536. cbn [spec_hex app].
  same_digits.
Qed.


Lemma FormatWord_length (w : Z) : length (FormatWord w) = 4%nat.
Proof. reflexivity. Qed.

Lemma to_BYTE_small (x : Z) : is_BYTE x -> to_BYTE x = x.
Proof. unfold is_BYTE, to_BYTE. intros H. apply Z.mod_small. lia. Qed.

Lemma to_WORD_small (x : Z) : is_WORD x -> to_WORD x = x.
Proof. unfold is_WORD, to_WORD. intros H. apply Z.mod_small. lia. Qed.

Lemma to_DWORD_small (x : Z) : is_DWORD x -> to_DWORD x = x.
Proof. unfold is_DWORD, to_DWORD. intros H. apply Z.mod_small. lia. Qed.

Lemma high_byte_is_BYTE (w : Z) : is_WORD w -> is_BYTE (Z.shiftr w 8).
Proof.
  unfold is_WORD, is_BYTE. intros H. rewrite Z.shiftr_div_pow2 by lia.
  change (2 ^ 8) with 256. zdiv.
Qed.

Lemma low_byte_is_BYTE (w : Z) : is_BYTE (Z.land w 0x00FF).
Proof.
  unfold is_BYTE. change (Z.land w 0x00FF) with (Z.land w (Z.ones 8)).
  rewrite Z.land_ones by lia. change (2 ^ 8) with 256.
  pose proof (Z.mod_pos_bound w 256). lia.
Qed.

Lemma high_word_is_WORD (dw : Z) : is_DWORD dw -> is_WORD (Z.shiftr dw 16).
Proof.
  unfold is_DWORD, is_WORD. intros H. rewrite Z.shiftr_div_pow2 by lia.
  change (2 ^ 16) with 65536. zdiv.
Qed.

Lemma low_word_is_WORD (dw : Z) : is_WORD (Z.land dw 0x0000FFFF).
Proof.
  unfold is_WORD. change (Z.land dw 0x0000FFFF) with (Z.land dw (Z.ones 16)).
  rewrite Z.land_ones by lia. change (2 ^ 16) with 65536.
  pose proof (Z.mod_pos_bound dw 65536). lia.
Qed.

(** Reading the text of a formatter back gives the number formatted. *)

Lemma hex_value_FormatByte (b : Z) : is_BYTE b -> hex_value (FormatByte b) = b.
Proof.
  intros H. rewrite FormatByte_spec_hex, hex_value_spec_hex.
  apply Z.mod_small. exact H.
Qed.

Lemma hex_value_FormatWord (w : Z) : is_WORD w -> hex_value (FormatWord w) = w.
Proof.
  intros H. rewrite FormatWord_spec_hex, hex_value_spec_hex.
  apply Z.mod_small. exact H.
Qed.

Lemma hex_value_FormatDword (dw : Z) :
  is_DWORD dw -> hex_value (FormatDword dw) = dw.
Proof.
  intros H. rewrite FormatDword_spec_hex, hex_value_spec_hex.
  apply Z.mod_small. exact H.
Qed.

(** ** The claims on the hexadecimal formatters *)

(** C7: the nibble-to-digit step is total.  For every byte [b] the masked
    value [v = b & 0x0F] lies in 0..15, [FormatLowNibble b] is ['0' + v]
    when [v < 10] and ['A' + (v - 10)] otherwise, the result is one of
    0-9, A-F, and the sixteen nibble values give the sixteen digits. *)
Theorem FormatLowNibble_total (b : Z) :
  is_BYTE b ->
  let v := Z.land b 0x0F in
  0 <= v <= 15 /\
  detail.FormatLowNibble b =
    (if v <? 10 then Lc "0" + v else Lc "A" + (v - 10)) /\
  is_hex_char (detail.FormatLowNibble b) /\
  List.map detail.FormatLowNibble
    [0; 1; 2; 3; 4; 5; 6; 7; 8; 9; 10; 11; 12; 13; 14; 15] =
  L "0123456789ABCDEF".
Proof.
  intros _ v. subst v.
  pose proof (low_nibble_range b) as Hr.
  split; [exact Hr |]. split; [| split; [| reflexivity]].
  - unfold detail.FormatLowNibble.
    pose proof (low_nibble_mod b) as Hm. unfold to_BYTE in *.
    rewrite (Z.mod_small (Z.land b 0x0F) 256) by lia.
    set (v := Z.land b 0x0F) in *.
    nibble_cases v; reflexivity.
  - rewrite FormatLowNibble_digit. apply spec_hex_digit_is_hex.
    apply Z.mod_pos_bound. lia.
Qed.

Lemma FormatLowNibble_total_witness :
  is_BYTE 0xAB /\ detail.FormatLowNibble 0xAB = Lc "B".
Proof.
  split; [unfold is_BYTE; lia |].
  destruct (FormatLowNibble_total 0xAB) as (_ & H & _);
    [unfold is_BYTE; lia | exact H].
Defined.

(** C1: for every byte [b], [FormatByte b] has length 2, consists of
    characters 0-9, A-F only, and is the standard two-digit uppercase
    hexadecimal rendering of [b]; 0 gives "00", 255 gives "FF" and 0xAB
    gives "AB". *)
Theorem FormatByte_correct (b : Z) :
  is_BYTE b ->
  length (FormatByte b) = 2%nat /\
  Forall is_hex_char (FormatByte b) /\
  FormatByte b = spec_hex 2 b /\
  FormatByte b = [spec_hex_digit (b / 16); spec_hex_digit (b mod 16)] /\
  FormatByte 0 = L "00" /\
  FormatByte 255 = L "FF" /\
  FormatByte 0xAB = L "AB".
Proof.
  intros Hb. split; [reflexivity |].
  split; [rewrite FormatByte_spec_hex; apply spec_hex_is_hex |].
  split; [apply FormatByte_spec_hex |].
  split; [| repeat split; reflexivity].
  rewrite FormatByte_spec_hex. cbn [spec_hex app].
  unfold is_BYTE in Hb. same_digits.
Qed.

Lemma FormatByte_correct_witness :
  is_BYTE 0x3C /\ FormatByte 0x3C = spec_hex 2 0x3C.
Proof.
  split; [unfold is_BYTE; lia |].
  apply (FormatByte_correct 0x3C). unfold is_BYTE. lia.
Defined.

(** C2: for every 16-bit [w], [FormatWord w] has length 4 and is
    [FormatByte (w >> 8)] followed by [FormatByte (w & 0x00FF)];
    0x1234 gives "1234", 0 gives "0000" and 0xFFFF gives "FFFF". *)
Theorem FormatWord_correct (w : Z) :
  is_WORD w ->
  length (FormatWord w) = 4%nat /\
  FormatWord w =
    FormatByte (Z.shiftr w 8) ++ FormatByte (Z.land w 0x00FF) /\
  FormatWord 0x1234 = L "1234" /\
  FormatWord 0 = L "0000" /\
  FormatWord 0xFFFF = L "FFFF".
Proof.
  intros Hw. split; [reflexivity |].
  split; [| repeat split; reflexivity].
  rewrite FormatWord_bytes.
  rewrite (to_BYTE_small _ (high_byte_is_BYTE w Hw)).
  rewrite (to_BYTE_small _ (low_byte_is_BYTE w)). reflexivity.
Qed.

Lemma FormatWord_correct_witness :
  is_WORD 0xBEEF /\
  FormatWord 0xBEEF =
    FormatByte (Z.shiftr 0xBEEF 8) ++ FormatByte (Z.land 0xBEEF 0x00FF).
Proof.
  split; [unfold is_WORD; lia |].
  apply (FormatWord_correct 0xBEEF). unfold is_WORD. lia.
Defined.

(** C3: for every 32-bit [dw], [FormatDword dw] has length 8 and is
    [FormatWord (dw >> 16)] followed by [FormatWord (dw & 0x0000FFFF)];
    0x12345678 gives "12345678", 0xFFFFFFFF gives "FFFFFFFF" and 0 gives
    "00000000". *)
Theorem FormatDword_correct (dw : Z) :
  is_DWORD dw ->
  length (FormatDword dw) = 8%nat /\
  FormatDword dw =
    FormatWord (Z.shiftr dw 16) ++ FormatWord (Z.land dw 0x0000FFFF) /\
  FormatDword 0x12345678 = L "12345678" /\
  FormatDword 0xFFFFFFFF = L "FFFFFFFF" /\
  FormatDword 0 = L "00000000".
Proof.
  intros Hdw. split; [reflexivity |].
  split; [| repeat split; reflexivity].
  unfold FormatDword.
  rewrite (to_WORD_small _ (high_word_is_WORD dw Hdw)).
  rewrite (to_WORD_small _ (low_word_is_WORD dw)). reflexivity.
Qed.

Lemma FormatDword_correct_witness :
  is_DWORD 0xABCDEFAB /\
  FormatDword 0xABCDEFAB =
    FormatWord (Z.shiftr 0xABCDEFAB 16) ++
    FormatWord (Z.land 0xABCDEFAB 0x0000FFFF).
Proof.
  split; [unfold is_DWORD; lia |].
  apply (FormatDword_correct 0xABCDEFAB). unfold is_DWORD. lia.
Defined.

(** C6: for every signed 32-bit status [hr], [FormatHResult hr] is
    [FormatDword u] where [u = hr mod 2^32] is [hr] reinterpreted bit for
    bit as an unsigned 32-bit value; [S_OK] gives "00000000" and
    [E_INVALIDARG] gives "80070057". *)
Theorem FormatHResult_correct (hr : Z) :
  is_HRESULT hr ->
  let u := hr mod 2 ^ 32 in
  is_DWORD u /\
  u = (if hr <? 0 then hr + 2 ^ 32 else hr) /\
  (forall i, 0 <= i < 32 -> Z.testbit u i = Z.testbit hr i) /\
  FormatHResult hr = FormatDword u /\
  FormatHResult hr = spec_hex 8 u /\
  FormatHResult S_OK = L "00000000" /\
  FormatHResult E_INVALIDARG = L "80070057".
Proof.
  intros Hhr u. subst u. unfold is_HRESULT, INT_MIN, INT_MAX in Hhr.
  change (2 ^ 32) with 4294967296.
  split; [unfold is_DWORD; apply Z.mod_pos_bound; lia |].
  split.
  { destruct (Z.ltb_spec hr 0) as [Hneg | Hpos].
    - symmetry. apply (Z.mod_unique hr 4294967296 (-1)); lia.
    - apply Z.mod_small. lia. }
  split.
  { intros i Hi. change 4294967296 with (2 ^ 32).
    apply Z.mod_pow2_bits_low. lia. }
  split; [reflexivity |].
  split; [| split; reflexivity].
  unfold FormatHResult, to_DWORD. apply FormatDword_spec_hex.
Qed.

Lemma FormatHResult_correct_witness :
  is_HRESULT (-2147467259) /\ FormatHResult (-2147467259) = L "80004005".
Proof.
  split; [unfold is_HRESULT, INT_MIN, INT_MAX; lia |].
  destruct (FormatHResult_correct (-2147467259)) as (_ & _ & _ & H & _);
    [unfold is_HRESULT, INT_MIN, INT_MAX; lia |].
  rewrite H. reflexivity.
Defined.

(** C10: the hex formatters are injective.  Distinct bytes have distinct
    [FormatByte] texts, distinct 16-bit values distinct [FormatWord]
    texts, distinct 32-bit values distinct [FormatDword] texts, and the
    number is read back from the text by [hex_value]. *)
Theorem hex_formatters_injective :
  (forall a b, is_BYTE a -> is_BYTE b -> a <> b ->
     FormatByte a <> FormatByte b) /\
  (forall a b, is_WORD a -> is_WORD b -> a <> b ->
     FormatWord a <> FormatWord b) /\
  (forall a b, is_DWORD a -> is_DWORD b -> a <> b ->
     FormatDword a <> FormatDword b) /\
  (forall b, is_BYTE b -> hex_value (FormatByte b) = b) /\
  (forall w, is_WORD w -> hex_value (FormatWord w) = w) /\
  (forall dw, is_DWORD dw -> hex_value (FormatDword dw) = dw).
Proof.
  repeat split.
  - intros a b Ha Hb Hne Heq. apply Hne.
    rewrite <- (hex_value_FormatByte a Ha), <- (hex_value_FormatByte b Hb).
    now rewrite Heq.
  - intros a b Ha Hb Hne Heq. apply Hne.
    rewrite <- (hex_value_FormatWord a Ha), <- (hex_value_FormatWord b Hb).
    now rewrite Heq.
  - intros a b Ha Hb Hne Heq. apply Hne.
    rewrite <- (hex_value_FormatDword a Ha), <- (hex_value_FormatDword b Hb).
    now rewrite Heq.
  - apply hex_value_FormatByte.
  - apply hex_value_FormatWord.
  - apply hex_value_FormatDword.
Qed.

Lemma hex_formatters_injective_witness :
  FormatByte 0x0A <> FormatByte 0xA0 /\
  FormatWord 0x00FF <> FormatWord 0xFF00 /\
  FormatDword 0x0000FFFF <> FormatDword 0xFFFF0000 /\
  hex_value (FormatDword 0xDEADBEEF) = 0xDEADBEEF.
Proof.
  destruct hex_formatters_injective as (HB & HW & HD & _ & _ & HV).
  split; [apply HB; unfold is_BYTE; lia |].
  split; [apply HW; unfold is_WORD; lia |].
  split; [apply HD; unfold is_DWORD; lia |].
  apply HV. unfold is_DWORD. lia.
Defined.
Example wprintf_hello :
  wprintf_text (L "Hello %s, you are %d years old.")
    [ArgWStr (L "Ann"); ArgInt 30] =
  Some (L "Hello Ann, you are 30 years old.").
Proof. vm_compute. reflexivity. Qed.

Example wprintf_test_suite :
  wprintf_text (L "Testing StringPrintf %s %d 0x%08X.")
    [ArgWStr (L "Hello"); ArgInt 10; ArgInt E_INVALIDARG] =
  Some (L "Testing StringPrintf Hello 10 0x80070057.").
Proof. vm_compute. reflexivity. Qed.

Example wprintf_neg :
  wprintf_text (L "%05d|%5d|%X|%%|%3s")
    [ArgInt (-42); ArgInt 7; ArgInt 255; ArgWStr (L "a")] =
  Some (L "-0042|    7|FF|%|  a").
Proof. vm_compute. reflexivity. Qed.

Example wprintf_malformed : wprintf_text (L "50%") [] = None.
Proof. reflexivity. Qed.

Example StringPrintf_hello_runs :
  StringPrintf wprintf_text (L "Hello %s, you are %d years old.")
    [ArgWStr (L "Ann"); ArgInt 30] sample_process =
  Returns (L "Hello Ann, you are 30 years old.") sample_process.
Proof. vm_compute. reflexivity. Qed.

(** ** Facts about [StringPrintf] *)

Section FormattingFacts.

Variable format_text : wstring -> list printf_arg -> option wstring.

Lemma to_int_small (x : Z) : INT_MIN <= x <= INT_MAX -> to_int x = x.
Proof.
  unfold INT_MIN, INT_MAX, to_int. intros H.
  rewrite Z.mod_small; lia.
Qed.

Lemma to_size_t_small (x : Z) : 0 <= x <= INT_MAX -> to_size_t x = x.
Proof.
  unfold INT_MAX, to_size_t. intros H. apply Z.mod_small. lia.
Qed.

Lemma resize_empty (n : Z) (p : process) :
  0 <= n <= INT_MAX ->
  resize [] n p = Returns (repeat NUL (Z.to_nat n)) p.
Proof.
  unfold INT_MAX, resize, wstring_max_size. intros H.
  destruct (Z.ltb_spec 9223372036854775806 n) as [Hbig | _]; [lia |].
  rewrite firstn_nil. cbn [length app]. now rewrite Nat.sub_0_r.
Qed.

Lemma skipn_repeat_all {A} (x : A) (n : nat) : skipn n (repeat x n) = [].
Proof. apply skipn_all2. now rewrite repeat_length. Qed.

(** The measuring pass on a template that renders within the limit. *)
Lemma _vscwprintf_measures format args t p :
  format_text format args = Some t ->
  Z.of_nat (length t) <= INT_MAX ->
  _vscwprintf format_text format args p = Returns (Z.of_nat (length t)) p.
Proof.
  intros Ht Hlen. unfold _vscwprintf. rewrite Ht.
  destruct (Z.leb_spec (Z.of_nat (length t)) INT_MAX); [reflexivity | lia].
Qed.

(** The rendering pass into a zeroed buffer of exactly one unit more than
    the text: the text followed by its terminator. *)
Lemma _vsnwprintf_s_renders format args t p :
  format_text format args = Some t ->
  _vsnwprintf_s format_text (repeat NUL (S (length t)))
    (Z.of_nat (length t) + 1) format args p =
  Returns (t ++ [NUL], Z.of_nat (length t)) p.
Proof.
  intros Ht. unfold _vsnwprintf_s. rewrite Ht.
  destruct (Z.leb_spec (Z.of_nat (length t) + 1) 0) as [Hle | _]; [lia |].
  destruct (Z.ltb_spec (Z.of_nat (length t)) (Z.of_nat (length t) + 1))
    as [_ | Hge]; [| lia].
  now rewrite skipn_repeat_all.
Qed.

Lemma pop_back_terminator (t : wstring) (p : process) :
  pop_back (t ++ [NUL]) p = Returns t p.
Proof.
  unfold pop_back. destruct (t ++ [NUL]) eqn:E.
  - now destruct t.
  - rewrite <- E. now rewrite removelast_last.
Qed.

Lemma StringPrintf_renders format args t p :
  format_text format args = Some t ->
  Z.of_nat (length t) < INT_MAX ->
  StringPrintf format_text format args p = Returns t p.
Proof.
  intros Ht Hlen. unfold StringPrintf, bind.
  rewrite (_vscwprintf_measures _ _ _ _ Ht) by lia.
  assert (Hn : 0 <= Z.of_nat (length t) + 1 <= INT_MAX) by lia.
  rewrite to_int_small by (unfold INT_MIN, INT_MAX in *; lia).
  rewrite to_size_t_small by exact Hn.
  rewrite resize_empty by exact Hn.
  replace (Z.to_nat (Z.of_nat (length t) + 1)) with (S (length t)) by lia.
  rewrite (_vsnwprintf_s_renders _ _ _ _ Ht). cbn [fst].
  apply pop_back_terminator.
Qed.

(** A reported measuring failure: the count is ignored, the string stays
    empty, the renderer refuses its zero-sized buffer, and [pop_back] is
    applied to the empty string. *)
Lemma StringPrintf_after_failure format args p p' :
  _vscwprintf format_text format args p = Returns (-1) p' ->
  StringPrintf format_text format args p = Undefined.
Proof.
  intros Hm. unfold StringPrintf, bind. rewrite Hm. reflexivity.
Qed.

(** The text is exactly [INT_MAX] long: the count plus one wraps and the
    string refuses the size. *)
Lemma StringPrintf_at_limit format args t p :
  format_text format args = Some t ->
  Z.of_nat (length t) = INT_MAX ->
  StringPrintf format_text format args p = Throws length_error p.
Proof.
  intros Ht Hlen. unfold StringPrintf, bind.
  rewrite (_vscwprintf_measures _ _ _ _ Ht) by lia.
  rewrite Hlen. reflexivity.
Qed.

(** The outcome of [StringPrintf] in every case. *)
Lemma StringPrintf_cases format args p :
  StringPrintf format_text format args p =
  match format_text format args with
  | Some t =>
      if Z.of_nat (length t) <? INT_MAX then Returns t p
      else if Z.of_nat (length t) =? INT_MAX then Throws length_error p
      else Undefined
  | None => Undefined
  end.
Proof.
  destruct (format_text format args) as [t |] eqn:Ht.
  - destruct (Z.ltb_spec (Z.of_nat (length t)) INT_MAX) as [Hlt | Hge].
    + now apply StringPrintf_renders.
    + destruct (Z.eqb_spec (Z.of_nat (length t)) INT_MAX) as [Heq | Hne].
      * now apply (StringPrintf_at_limit _ _ t).
      * apply (StringPrintf_after_failure _ _ _ (set_errno EINVAL p)).
        unfold _vscwprintf. rewrite Ht.
        destruct (Z.leb_spec (Z.of_nat (length t)) INT_MAX); [lia |].
        reflexivity.
  - apply (StringPrintf_after_failure _ _ _ (set_errno EINVAL p)).
    unfold _vscwprintf. now rewrite Ht.
Qed.

End FormattingFacts.

(** ** The claims on [StringPrintf] *)

(** C4: for every format template with matching arguments (rendering
    within the platform's size limit), [StringPrintf] first measures the
    exact rendered length, excluding any terminator, and returns a string
    of exactly that length: the rendered text, without the terminating NUL
    the rendering primitive wrote after it.  In particular
    "Hello %s, you are %d years old." with "Ann" and 30 gives
    "Hello Ann, you are 30 years old.". *)
Theorem StringPrintf_exact_length :
  (forall (format_text : wstring -> list printf_arg -> option wstring)
          (format : wstring) (args : list printf_arg) (t : wstring)
          (p : process),
     format_text format args = Some t ->
     Z.of_nat (length t) < INT_MAX ->
     exists measured : Z,
       _vscwprintf format_text format args p = Returns measured p /\
       measured = Z.of_nat (length t) /\
       _vsnwprintf_s format_text (repeat NUL (Z.to_nat (measured + 1)))
         (measured + 1) format args p = Returns (t ++ [NUL], measured) p /\
       exists s : wstring,
         StringPrintf format_text format args p = Returns s p /\
         Z.of_nat (length s) = measured /\
         s = t) /\
  (forall p : process,
     StringPrintf wprintf_text (L "Hello %s, you are %d years old.")
       [ArgWStr (L "Ann"); ArgInt 30] p =
     Returns (L "Hello Ann, you are 30 years old.") p).
Proof.
  split.
  - intros format_text format args t p Ht Hlen.
    exists (Z.of_nat (length t)).
    split; [apply _vscwprintf_measures; [exact Ht | lia] |].
    split; [reflexivity |].
    split.
    + replace (Z.to_nat (Z.of_nat (length t) + 1)) with (S (length t)) by lia.
      now apply _vsnwprintf_s_renders.
    + exists t. split; [now apply StringPrintf_renders |]. now split.
  - intros p. apply StringPrintf_renders.
    + vm_compute. reflexivity.
    + vm_compute. reflexivity.
Qed.

Lemma StringPrintf_exact_length_witness :
  wprintf_text (L "0x%08X") [ArgInt 0xDEADBEEF] =
    Some (L "0x" ++ FormatDword 0xDEADBEEF) /\
  exists s : wstring,
    StringPrintf wprintf_text (L "0x%08X") [ArgInt 0xDEADBEEF]
      sample_process = Returns s sample_process /\
    Z.of_nat (length s) = 10 /\
    s = L "0x" ++ FormatDword 0xDEADBEEF.
Proof.
  split; [vm_compute; reflexivity |].
  destruct StringPrintf_exact_length as [Hgen _].
  destruct (Hgen wprintf_text (L "0x%08X") [ArgInt 0xDEADBEEF]
              (L "0x" ++ FormatDword 0xDEADBEEF) sample_process)
    as (measured & _ & Hm & _ & s & Hs & Hlen & Heq).
  - vm_compute. reflexivity.
  - vm_compute. reflexivity.
  - exists s. split; [exact Hs |]. split; [| exact Heq].
    rewrite Hlen, Hm. vm_compute. reflexivity.
Defined.







(** ** The claim on [LoadStringResource] *)

Lemma LoadStringResource_returns (hInstance stringId : Z) (p : process) :
  LoadStringResource hInstance stringId p =
  Returns (match string_table p !! (hInstance, stringId) with
           | Some text => text
           | None => []
           end) p.
Proof.
  unfold LoadStringResource, bind, LoadString.
  destruct (string_table p !! (hInstance, stringId)) as [text |];
    [| reflexivity].
  cbn [Z.eqb fst snd].
  destruct (Z.eqb_spec (Z.of_nat (length text)) 0) as [Hz | Hnz]; cbn [negb].
  - destruct text; [reflexivity | discriminate].
  - unfold ret, std_wstring. rewrite Nat2Z.id, firstn_all. reflexivity.
Qed.

(** C8: [LoadStringResource] signals no errors.  For every module handle
    and string id it returns normally: the empty string when the lookup
    misses, and exactly the stored text otherwise; a miss and a stored
    empty text give the same result. *)
Theorem LoadStringResource_lookup (hInstance stringId : Z) (p : process) :
  (exists s, LoadStringResource hInstance stringId p = Returns s p) /\
  (string_table p !! (hInstance, stringId) = None ->
   LoadStringResource hInstance stringId p = Returns [] p) /\
  (forall text, string_table p !! (hInstance, stringId) = Some text ->
   LoadStringResource hInstance stringId p = Returns text p) /\
  (forall q s,
     string_table p !! (hInstance, stringId) = None ->
     string_table q !! (hInstance, stringId) = Some [] ->
     LoadStringResource hInstance stringId p = Returns s p ->
     LoadStringResource hInstance stringId q = Returns s q).
Proof.
  rewrite LoadStringResource_returns.
  split; [eexists; reflexivity |].
  split; [intros ->; reflexivity |].
  split; [intros text ->; reflexivity |].
  intros q s Hmiss Hempty. rewrite Hmiss, LoadStringResource_returns, Hempty.
  intros [= <-]. reflexivity.
Qed.

Lemma LoadStringResource_lookup_witness :
  LoadStringResource 0x400000 101 sample_process =
    Returns (L "Test string") sample_process /\
  LoadStringResource 0x400000 102 sample_process = Returns [] sample_process /\
  LoadStringResource 0x400000 999 sample_process = Returns [] sample_process /\
  LoadStringResource 0 101 sample_process = Returns [] sample_process.
Proof.
  split; [| split; [| split]].
  - destruct (LoadStringResource_lookup 0x400000 101 sample_process)
      as (_ & _ & Hhit & _).
    apply Hhit. vm_compute. reflexivity.
  - destruct (LoadStringResource_lookup 0x400000 102 sample_process)
      as (_ & _ & Hhit & _).
    apply Hhit. vm_compute. reflexivity.
  - destruct (LoadStringResource_lookup 0x400000 999 sample_process)
      as (_ & Hmiss & _).
    apply Hmiss. vm_compute. reflexivity.
  - destruct (LoadStringResource_lookup 0 101 sample_process)
      as (_ & Hmiss & _).
    apply Hmiss. vm_compute. reflexivity.
Defined.

(** ** The expectations of the test suite

    The tests compare each formatter with [CString::Format]; here the
    same comparisons are made against [wprintf_text]. *)

Lemma FormatByte_matches_reference (b : Z) :
  is_BYTE b -> wprintf_text (L "%02X") [ArgInt b] = Some (FormatByte b).
Proof.
  intros Hb.
  assert (Hall : forallb
            (fun x => bool_decide
               (wprintf_text (L "%02X") [ArgInt x] = Some (FormatByte x)))
            (seqZ 0 256) = true) by (vm_compute; reflexivity).
  rewrite forallb_forall in Hall.
  assert (Hin : In b (seqZ 0 256)).
  { apply list_elem_of_In, elem_of_seqZ. unfold is_BYTE in Hb. lia. }
  apply Hall in Hin. now apply bool_decide_eq_true in Hin.
Qed.

Example FormatDword_matches_reference :
  Forall (fun dw => wprintf_text (L "%08X") [ArgInt dw] =
                    Some (FormatDword dw))
    [0x00000000; 0xFFFFFFFF; 0x0000FFFF; 0xFFFF0000; 0x12345678; 0xABCDEFAB].
Proof. repeat constructor. Qed.

Example StringPrintf_matches_reference :
  StringPrintf wprintf_text (L "Testing StringPrintf %s %d 0x%08X.")
    [ArgWStr (L "Hello"); ArgInt 10; ArgInt E_INVALIDARG] sample_process =
  Returns (L "Testing StringPrintf Hello 10 0x" ++ FormatHResult E_INVALIDARG
           ++ L ".") sample_process.
Proof. vm_compute. reflexivity. Qed.

(** ** Further properties of the hexadecimal formatters *)

Lemma spec_hex_digit_code (v : Z) :
  0 <= v < 16 ->
  spec_hex_digit v = if v <? 10 then Lc "0" + v else Lc "A" + (v - 10).
Proof. intros Hv. nibble_cases v; reflexivity. Qed.

Lemma spec_hex_digit_lt (u v : Z) :
  0 <= u < 16 -> 0 <= v < 16 ->
  (spec_hex_digit u < spec_hex_digit v <-> u < v).
Proof.
  intros Hu Hv. rewrite !spec_hex_digit_code by assumption.
  change (Lc "0") with 48. change (Lc "A") with 65.
  destruct (Z.ltb_spec u 10), (Z.ltb_spec v 10); lia.
Qed.

Lemma spec_hex_inj (k : nat) (a b : Z) :
  0 <= a < 16 ^ Z.of_nat k -> 0 <= b < 16 ^ Z.of_nat k ->
  spec_hex k a = spec_hex k b -> a = b.
Proof.
  intros Ha Hb Heq. apply (f_equal hex_value) in Heq.
  rewrite !hex_value_spec_hex in Heq.
  now rewrite !Z.mod_small in Heq by assumption.
Qed.

Lemma wstring_ltb_snoc (x y : wstring) (c d : wchar_t) :
  length x = length y ->
  (wstring_ltb (x ++ [c]) (y ++ [d]) = true <->
   wstring_ltb x y = true \/ (x = y /\ c < d)).
Proof.
  revert y. induction x as [| a x IH]; intros [| b y] Hlen;
    try discriminate Hlen; cbn [app wstring_ltb].
  - rewrite orb_true_iff, andb_true_iff, Z.ltb_lt. intuition discriminate.
  - injection Hlen as Hlen. specialize (IH y Hlen).
    rewrite !orb_true_iff, !andb_true_iff, Z.ltb_lt, Z.eqb_eq, IH.
    split.
    + intros [Hlt | [-> [Hxy | [-> Hcd]]]]; auto.
    + intros [[Hlt | [-> Hxy]] | [[= -> ->] Hcd]]; auto.
Qed.

Lemma div16_range (k : nat) (a : Z) :
  0 <= a < 16 ^ Z.of_nat (S k) -> 0 <= a / 16 < 16 ^ Z.of_nat k.
Proof.
  rewrite Nat2Z.inj_succ, Z.pow_succ_r by lia. intros Ha. split.
  - apply Z.div_pos; lia.
  - apply Z.div_lt_upper_bound; lia.
Qed.

Lemma spec_hex_lt (k : nat) (a b : Z) :
  0 <= a < 16 ^ Z.of_nat k -> 0 <= b < 16 ^ Z.of_nat k ->
  (wstring_ltb (spec_hex k a) (spec_hex k b) = true <-> a < b).
Proof.
  revert a b. induction k as [| k IH]; intros a b Ha Hb.
  - cbn in *. split; [discriminate | lia].
  - cbn [spec_hex].
    pose proof (div16_range k a Ha) as Ha'.
    pose proof (div16_range k b Hb) as Hb'.
    rewrite wstring_ltb_snoc by now rewrite !spec_hex_length.
    rewrite (IH _ _ Ha' Hb').
    rewrite spec_hex_digit_lt by (apply Z.mod_pos_bound; lia).
    split.
    + intros [Hlt | [Heq Hlt]].
      * zdiv.
      * apply spec_hex_inj in Heq; [| assumption ..]. zdiv.
    + intros Hlt.
      destruct (Z.lt_ge_cases (a / 16) (b / 16)) as [Hq | Hq];
        [now left | right].
      assert (Heq : a / 16 = b / 16) by zdiv.
      split; [now rewrite Heq | zdiv].
Qed.

(** X1: the text of a double word is the texts of its four bytes, most
    significant byte first. *)
Theorem FormatDword_four_bytes (dw : Z) :
  is_DWORD dw ->
  FormatDword dw =
    FormatByte (Z.shiftr dw 24) ++
    FormatByte (Z.land (Z.shiftr dw 16) 0xFF) ++
    FormatByte (Z.land (Z.shiftr dw 8) 0xFF) ++
    FormatByte (Z.land dw 0xFF).
Proof.
  intros Hdw. unfold is_DWORD in Hdw.
  rewrite FormatDword_spec_hex, !FormatByte_spec_hex.
  change 0xFF with (Z.ones 8). rewrite !Z.land_ones by lia.
  rewrite !Z.shiftr_div_pow2 by lia.
  change (2 ^ 8) with 256. change (2 ^ 16) with 65536.
  change (2 ^ 24) with 16777216.
  cbn [spec_hex app]. same_digits.
Qed.

Lemma FormatDword_four_bytes_witness :
  is_DWORD 0x80070057 /\
  FormatDword 0x80070057 =
    FormatByte 0x80 ++ FormatByte 0x07 ++ FormatByte 0x00 ++ FormatByte 0x57.
Proof.
  split; [unfold is_DWORD; lia |].
  apply (FormatDword_four_bytes 0x80070057). unfold is_DWORD. lia.
Defined.

(** X2: the texts sort as the numbers do.  For each formatter, one text
    is below another in the order of [std::wstring] exactly when the
    number it was made from is smaller. *)
Theorem hex_text_order :
  (forall a b, is_BYTE a -> is_BYTE b ->
     (wstring_ltb (FormatByte a) (FormatByte b) = true <-> a < b)) /\
  (forall a b, is_WORD a -> is_WORD b ->
     (wstring_ltb (FormatWord a) (FormatWord b) = true <-> a < b)) /\
  (forall a b, is_DWORD a -> is_DWORD b ->
     (wstring_ltb (FormatDword a) (FormatDword b) = true <-> a < b)).
Proof.
  split; [| split]; intros a b Ha Hb.
  - rewrite !FormatByte_spec_hex. now apply spec_hex_lt.
  - rewrite !FormatWord_spec_hex. now apply spec_hex_lt.
  - rewrite !FormatDword_spec_hex. now apply spec_hex_lt.
Qed.

Lemma hex_text_order_witness :
  wstring_ltb (FormatByte 0x9F) (FormatByte 0xA0) = true /\
  wstring_ltb (FormatWord 0x0FFF) (FormatWord 0x1000) = true /\
  wstring_ltb (FormatDword 0x7FFFFFFF) (FormatDword 0x80000000) = true.
Proof.
  destruct hex_text_order as (HB & HW & HD).
  split; [apply HB; unfold is_BYTE; lia |].
  split; [apply HW; unfold is_WORD; lia |].
  apply HD; unfold is_DWORD; lia.
Defined.

(** X3: two bytes get the same digit from [FormatLowNibble] exactly when
    their low nibbles are equal; the high nibble plays no part. *)
Theorem FormatLowNibble_same_digit (a b : Z) :
  is_BYTE a -> is_BYTE b ->
  (detail.FormatLowNibble a = detail.FormatLowNibble b <->
   Z.land a 0x0F = Z.land b 0x0F).
Proof.
  intros _ _. rewrite !FormatLowNibble_digit.
  change 0x0F with (Z.ones 4). rewrite !Z.land_ones by lia.
  change (2 ^ 4) with 16.
  split; [| now intros ->].
  intros Heq. apply (f_equal hex_digit_value) in Heq.
  now rewrite !hex_digit_value_spec in Heq by (apply Z.mod_pos_bound; lia).
Qed.

Lemma FormatLowNibble_same_digit_witness :
  is_BYTE 0x3C /\ is_BYTE 0xFC /\
  detail.FormatLowNibble 0x3C = detail.FormatLowNibble 0xFC.
Proof.
  split; [unfold is_BYTE; lia |]. split; [unfold is_BYTE; lia |].
  apply (FormatLowNibble_same_digit 0x3C 0xFC);
    [unfold is_BYTE; lia | unfold is_BYTE; lia | reflexivity].
Defined.

(** X4: the text of a status code starts with one of 8, 9, A-F exactly
    when the status is a failure (negative). *)
Theorem FormatHResult_failure_digit (hr : Z) :
  is_HRESULT hr ->
  exists c rest,
    FormatHResult hr = c :: rest /\ (hr < 0 <-> Lc "8" <= c).
Proof.
  intros Hhr. unfold is_HRESULT, INT_MIN, INT_MAX in Hhr.
  unfold FormatHResult, to_DWORD. rewrite FormatDword_spec_hex.
  cbn [spec_hex app]. eexists. eexists. split; [reflexivity |].
  rewrite spec_hex_digit_code by (apply Z.mod_pos_bound; lia).
  change (Lc "0") with 48. change (Lc "A") with 65. change (Lc "8") with 56.
  match goal with |- context [?n <? 10] => destruct (Z.ltb_spec n 10) end;
    zdiv.
Qed.

Lemma FormatHResult_failure_digit_witness :
  is_HRESULT E_INVALIDARG /\
  exists c rest,
    FormatHResult E_INVALIDARG = c :: rest /\
    (E_INVALIDARG < 0 <-> Lc "8" <= c).
Proof.
  assert (H : is_HRESULT E_INVALIDARG)
    by (unfold is_HRESULT, INT_MIN, INT_MAX; vm_compute; split; discriminate).
  split; [exact H |]. exact (FormatHResult_failure_digit E_INVALIDARG H).
Defined.

(** X5: a status code is read back from its text: the hexadecimal value of
    [FormatHResult hr], taken as a signed 32-bit number, is [hr]. *)
Theorem FormatHResult_roundtrip (hr : Z) :
  is_HRESULT hr -> to_int (hex_value (FormatHResult hr)) = hr.
Proof.
  intros Hhr. unfold is_HRESULT, INT_MIN, INT_MAX in Hhr.
  unfold FormatHResult. rewrite hex_value_FormatDword.
  - unfold to_int, to_DWORD. zdiv.
  - unfold is_DWORD, to_DWORD. apply Z.mod_pos_bound. lia.
Qed.

Lemma FormatHResult_roundtrip_witness :
  is_HRESULT (-2147024882) /\
  to_int (hex_value (FormatHResult (-2147024882))) = -2147024882.
Proof.
  split; [unfold is_HRESULT, INT_MIN, INT_MAX; lia |].
  apply (FormatHResult_roundtrip (-2147024882)).
  unfold is_HRESULT, INT_MIN, INT_MAX. lia.
Defined.

(** ** The formatters and the printf conversions [%02X], [%04X], [%08X] *)

Lemma spec_hex_zero (k : nat) : spec_hex k 0 = repeat (Lc "0") k.
Proof.
  induction k as [| k IH]; [reflexivity |].
  cbn [spec_hex]. change (0 / 16) with 0. rewrite IH.
  change (spec_hex_digit (0 mod 16)) with (Lc "0").
  symmetry. apply repeat_cons.
Qed.

Lemma pad_left_snoc (fill : wchar_t) (k : nat) (body : wstring) (d : wchar_t) :
  pad_left fill (Z.of_nat (S k)) (body ++ [d]) =
  pad_left fill (Z.of_nat k) body ++ [d].
Proof.
  unfold pad_left. rewrite length_app, app_assoc. cbn [length].
  do 3 f_equal. lia.
Qed.

Lemma upper_hex_padded (k : nat) :
  forall (fuel : nat) (n : Z),
    (0 < k)%nat -> (k <= fuel)%nat -> 0 <= n < 16 ^ Z.of_nat k ->
    pad_left (Lc "0") (Z.of_nat k) (upper_hex_digits fuel n) = spec_hex k n.
Proof.
  induction k as [| k IH]; intros fuel n Hk Hfuel Hn; [lia |].
  destruct fuel as [| fuel]; [lia |].
  cbn [upper_hex_digits spec_hex]. rewrite pad_left_snoc. f_equal.
  pose proof (div16_range k n Hn) as Hq.
  destruct (Z.eqb_spec (n / 16) 0) as [Hz | Hnz].
  - rewrite Hz, spec_hex_zero. unfold pad_left. cbn [length].
    rewrite app_nil_r. f_equal. lia.
  - apply IH; [| lia | exact Hq].
    destruct k; [cbn in Hq; lia | lia].
Qed.

Lemma wprintf_hex_conversion (k : nat) (n : Z) :
  In k [2; 4; 8]%nat ->
  wprintf_text (Lc "%" :: Lc "0" :: (Lc "0" + Z.of_nat k) :: [Lc "X"])
    [ArgInt n] =
  Some (pad_left (Lc "0") (Z.of_nat k) (upper_hex_digits 8 (to_DWORD n))).
Proof.
  intros Hk.
  transitivity
    (Some (pad_left (Lc "0") (Z.of_nat k)
             (upper_hex_digits 8 (to_DWORD n)) ++ []));
    [| now rewrite app_nil_r].
  destruct Hk as [<- | [<- | [<- | []]]]; reflexivity.
Qed.

Lemma wprintf_hex_text (k : nat) (n : Z) :
  In k [2; 4; 8]%nat -> 0 <= n < 16 ^ Z.of_nat k ->
  wprintf_text (Lc "%" :: Lc "0" :: (Lc "0" + Z.of_nat k) :: [Lc "X"])
    [ArgInt n] = Some (spec_hex k n).
Proof.
  intros Hk Hn. rewrite wprintf_hex_conversion by exact Hk. f_equal.
  assert (Hpow : 16 ^ Z.of_nat k <= 4294967296).
  { destruct Hk as [<- | [<- | [<- | []]]]; cbn; lia. }
  unfold to_DWORD. rewrite Z.mod_small by lia.
  apply upper_hex_padded; [| | exact Hn];
    destruct Hk as [<- | [<- | [<- | []]]]; lia.
Qed.

Lemma wprintf_02X (b : Z) :
  is_BYTE b -> wprintf_text (L "%02X") [ArgInt b] = Some (FormatByte b).
Proof.
  intros Hb. rewrite FormatByte_spec_hex.
  apply (wprintf_hex_text 2 b); [cbn; auto | exact Hb].
Qed.

Lemma wprintf_04X (w : Z) :
  is_WORD w -> wprintf_text (L "%04X") [ArgInt w] = Some (FormatWord w).
Proof.
  intros Hw. rewrite FormatWord_spec_hex.
  apply (wprintf_hex_text 4 w); [cbn; auto | exact Hw].
Qed.

Lemma wprintf_08X (dw : Z) :
  is_DWORD dw -> wprintf_text (L "%08X") [ArgInt dw] = Some (FormatDword dw).
Proof.
  intros Hdw. rewrite FormatDword_spec_hex.
  apply (wprintf_hex_text 8 dw); [cbn; auto | exact Hdw].
Qed.

Lemma wprintf_08X_signed (hr : Z) :
  wprintf_text (L "%08X") [ArgInt hr] = Some (FormatHResult hr).
Proof.
  unfold FormatHResult. rewrite <- (wprintf_08X (to_DWORD hr)).
  - rewrite !(wprintf_hex_conversion 8) by (cbn; auto).
    unfold to_DWORD. now rewrite Z.mod_mod by discriminate.
  - unfold is_DWORD, to_DWORD. apply Z.mod_pos_bound. lia.
Qed.

(** X6: the references of the test suite and the formatters agree on
    every value, not only on the tested ones: ["%02X"], ["%04X"] and
    ["%08X"] render a byte, a word and a double word as [FormatByte],
    [FormatWord] and [FormatDword] do. *)
Theorem Expected_agree_with_formatters :
  (forall b, is_BYTE b -> ExpectedFormatByte b = FormatByte b) /\
  (forall w, is_WORD w -> ExpectedFormatWord w = FormatWord w) /\
  (forall dw, is_DWORD dw -> ExpectedFormatDword dw = FormatDword dw).
Proof.
  split; [| split].
  - intros b Hb. unfold ExpectedFormatByte, CString_Format.
    now rewrite wprintf_02X.
  - intros w Hw. unfold ExpectedFormatWord, CString_Format.
    now rewrite wprintf_04X.
  - intros dw Hdw. unfold ExpectedFormatDword, CString_Format.
    now rewrite wprintf_08X.
Qed.

Lemma Expected_agree_with_formatters_witness :
  ExpectedFormatByte 0x5A = FormatByte 0x5A /\
  ExpectedFormatWord 0xC0DE = FormatWord 0xC0DE /\
  ExpectedFormatDword 0xFFFF0000 = FormatDword 0xFFFF0000.
Proof.
  destruct Expected_agree_with_formatters as (HB & HW & HD).
  split; [apply HB; unfold is_BYTE; lia |].
  split; [apply HW; unfold is_WORD; lia |].
  apply HD; unfold is_DWORD; lia.
Defined.

(** X7: the reference for status codes, ["%08X"] applied to the signed
    value, agrees with [FormatHResult] on every status code, negative
    ones included. *)
Theorem ExpectedFormatHResult_agrees (hr : Z) :
  is_HRESULT hr -> ExpectedFormatHResult hr = FormatHResult hr.
Proof.
  intros _. unfold ExpectedFormatHResult, CString_Format.
  now rewrite wprintf_08X_signed.
Qed.

Lemma ExpectedFormatHResult_agrees_witness :
  is_HRESULT (-2147467259) /\
  ExpectedFormatHResult (-2147467259) = FormatHResult (-2147467259).
Proof.
  split; [unfold is_HRESULT, INT_MIN, INT_MAX; lia |].
  apply (ExpectedFormatHResult_agrees (-2147467259)).
  unfold is_HRESULT, INT_MIN, INT_MAX. lia.
Defined.

(** X8: the hex formatters are [StringPrintf] specialised: for every
    byte, word and double word, [StringPrintf] with ["%02X"], ["%04X"]
    and ["%08X"] returns what [FormatByte], [FormatWord] and
    [FormatDword] return, and with ["0x%08X"] the same behind "0x". *)
Theorem StringPrintf_hex_conversions (p : process) :
  (forall b, is_BYTE b ->
     StringPrintf wprintf_text (L "%02X") [ArgInt b] p =
     Returns (FormatByte b) p) /\
  (forall w, is_WORD w ->
     StringPrintf wprintf_text (L "%04X") [ArgInt w] p =
     Returns (FormatWord w) p) /\
  (forall dw, is_DWORD dw ->
     StringPrintf wprintf_text (L "%08X") [ArgInt dw] p =
     Returns (FormatDword dw) p) /\
  (forall dw, is_DWORD dw ->
     StringPrintf wprintf_text (L "0x%08X") [ArgInt dw] p =
     Returns (L "0x" ++ FormatDword dw) p).
Proof.
  split; [| split; [| split]].
  - intros b Hb. apply StringPrintf_renders; [now apply wprintf_02X |].
    vm_compute. reflexivity.
  - intros w Hw. apply StringPrintf_renders; [now apply wprintf_04X |].
    vm_compute. reflexivity.
  - intros dw Hdw. apply StringPrintf_renders; [now apply wprintf_08X |].
    vm_compute. reflexivity.
  - intros dw Hdw. apply StringPrintf_renders; [| vm_compute; reflexivity].
    change (wprintf_text (L "0x%08X") [ArgInt dw]) with
      (cons (Lc "0") <$> (cons (Lc "x") <$>
         wprintf_text (L "%08X") [ArgInt dw])).
    now rewrite wprintf_08X.
Qed.

Lemma StringPrintf_hex_conversions_witness :
  StringPrintf wprintf_text (L "%02X") [ArgInt 0x0F] sample_process =
    Returns (FormatByte 0x0F) sample_process /\
  StringPrintf wprintf_text (L "0x%08X") [ArgInt 0x000000FF] sample_process =
    Returns (L "0x" ++ FormatDword 0x000000FF) sample_process.
Proof.
  destruct (StringPrintf_hex_conversions sample_process)
    as (HB & _ & _ & HX).
  split; [apply HB; unfold is_BYTE; lia | apply HX; unfold is_DWORD; lia].
Defined.

(** X9: the outcome of [StringPrintf] in every case.  It returns the
    rendered text when that is shorter than [INT_MAX]; when the text is
    exactly [INT_MAX] units long the count plus one wraps and the call
    throws [std::length_error]; when the runtime reports a failure (a
    malformed template, or a text too long to count) the behaviour is
    undefined.  In no case is the process state changed. *)
Theorem StringPrintf_outcome
    (format_text : wstring -> list printf_arg -> option wstring)
    (format : wstring) (args : list printf_arg) (p : process) :
  StringPrintf format_text format args p =
  match format_text format args with
  | Some t =>
      if Z.of_nat (length t) <? INT_MAX then Returns t p
      else if Z.of_nat (length t) =? INT_MAX then Throws length_error p
      else Undefined
  | None => Undefined
  end.
Proof. apply StringPrintf_cases. Qed.

(** ** The helpers and loops of the test suite *)

Lemma c_string_full (s : list wchar_t) :
  length (c_string (s ++ [NUL])) = length s -> c_string (s ++ [NUL]) = s.
Proof.
  induction s as [| c s IH]; cbn [app c_string length]; [reflexivity |].
  destruct (Z.eqb_spec c NUL) as [_ | _]; cbn [length];
    [discriminate |].
  intros [= Hlen]. f_equal. now apply IH.
Qed.

Lemma c_string_no_NUL (s : list wchar_t) :
  c_string (s ++ [NUL]) = s <-> ~ In NUL s.
Proof.
  induction s as [| c s IH]; cbn [app c_string In].
  - split; [tauto | reflexivity].
  - destruct (Z.eqb_spec c NUL) as [-> | Hc].
    + split; [discriminate | tauto].
    + split.
      * intros [= Hs]. apply IH in Hs. intros [Heq | Hin]; congruence.
      * intros Hno. f_equal. apply IH. tauto.
Qed.

Lemma hex_text_no_NUL (s : wstring) : Forall is_hex_char s -> ~ In NUL s.
Proof.
  intros Hall Hin. rewrite Forall_forall in Hall.
  apply list_elem_of_In, Hall in Hin. unfold is_hex_char, NUL in Hin.
  change (Lc "0") with 48 in Hin. change (Lc "A") with 65 in Hin. lia.
Qed.

Lemma for_each_Passed (counter : list Z) (body : Z -> test_outcome) :
  for_each counter body = Passed <->
  forall i, In i counter -> body i = Passed.
Proof.
  induction counter as [| i rest IH]; cbn [for_each In].
  - split; [tauto | reflexivity].
  - destruct (body i) eqn:Hi.
    + rewrite IH. split.
      * intros Hrest j [<- | Hj]; auto.
      * auto.
    + split; [discriminate |]. intros Hall.
      specialize (Hall i (or_introl eq_refl)). congruence.
Qed.

Lemma Check_Passed (condition : bool) (message : string) :
  Check condition message = Passed <-> condition = true.
Proof. destruct condition; cbn; split; congruence. Qed.

Lemma In_seqZ (i m n : Z) : In i (seqZ m n) <-> m <= i < m + n.
Proof. rewrite <- list_elem_of_In. apply elem_of_seqZ. Qed.

Lemma Equal_characterised (s1 : wstring) (s2 : list wchar_t) :
  Z.of_nat (length s2) <= INT_MAX ->
  (Equal s1 s2 = true <-> s1 = s2 /\ ~ In NUL s2).
Proof.
  intros Hlen. unfold Equal, wstring_eq_ptr, CString_GetLength,
    CString_GetString, to_size_t, INT_MAX in *.
  rewrite andb_true_iff, Z.eqb_eq, bool_decide_eq_true.
  rewrite Z.mod_small by lia. split.
  - intros [Hl Heq]. apply Nat2Z.inj in Hl.
    assert (Hfull : c_string (s2 ++ [NUL]) = s2)
      by (apply c_string_full; congruence).
    split; [congruence | now apply c_string_no_NUL].
  - intros [-> Hno]. split; [reflexivity |].
    symmetry. now apply c_string_no_NUL.
Qed.

(** X10: [Equal] accepts a string and a [CString] exactly when they have
    the same content and that content holds no NUL unit: it never accepts
    two different texts, and it rejects a text with an embedded NUL even
    when compared with itself. *)
Theorem Equal_true_iff (s1 : wstring) (s2 : list wchar_t) :
  Z.of_nat (length s2) <= INT_MAX ->
  (Equal s1 s2 = true <-> s1 = s2 /\ ~ In NUL s2).
Proof. apply Equal_characterised. Qed.

Lemma Equal_true_iff_witness :
  Equal (L "FF") (L "FF") = true /\
  Equal (L "FF") (L "FE") = false /\
  Equal [70; 0; 70] [70; 0; 70] = false.
Proof.
  split; [| split].
  - apply (Equal_true_iff (L "FF") (L "FF")); [vm_compute; discriminate |].
    split; [reflexivity |]. vm_compute. intuition discriminate.
  - apply not_true_is_false. intros H.
    apply (Equal_true_iff (L "FF") (L "FE")) in H;
      [| vm_compute; discriminate].
    destruct H as [H _]. discriminate H.
  - apply not_true_is_false. intros H.
    apply (Equal_true_iff [70; 0; 70] [70; 0; 70]) in H;
      [| vm_compute; discriminate].
    destruct H as [_ H]. apply H. cbn. auto.
Defined.

Lemma Equal_hex_text (s1 s2 : wstring) :
  Forall is_hex_char s2 -> Z.of_nat (length s2) <= INT_MAX ->
  (Equal s1 s2 = true <-> s1 = s2).
Proof.
  intros Hhex Hlen. rewrite Equal_characterised by exact Hlen.
  pose proof (hex_text_no_NUL s2 Hhex). tauto.
Qed.

Lemma Equal_Expected_byte (s : wstring) (b : Z) :
  is_BYTE b -> (Equal s (ExpectedFormatByte b) = true <->
                s = ExpectedFormatByte b).
Proof.
  intros Hb. unfold ExpectedFormatByte, CString_Format.
  rewrite wprintf_02X by exact Hb. apply Equal_hex_text.
  - rewrite FormatByte_spec_hex. apply spec_hex_is_hex.
  - vm_compute. discriminate.
Qed.

Lemma Equal_Expected_word (s : wstring) (w : Z) :
  is_WORD w -> (Equal s (ExpectedFormatWord w) = true <->
                s = ExpectedFormatWord w).
Proof.
  intros Hw. unfold ExpectedFormatWord, CString_Format.
  rewrite wprintf_04X by exact Hw. apply Equal_hex_text.
  - rewrite FormatWord_spec_hex. apply spec_hex_is_hex.
  - vm_compute. discriminate.
Qed.

Lemma TestFormatByte_with_Passed (format : Z -> wstring) :
  TestFormatByte_with format = Passed <->
  forall b, is_BYTE b -> format b = ExpectedFormatByte b.
Proof.
  unfold TestFormatByte_with. rewrite for_each_Passed. split.
  - intros Hall b Hb. specialize (Hall b). cbv zeta in Hall.
    rewrite (to_BYTE_small b Hb), Check_Passed in Hall.
    apply (Equal_Expected_byte _ b Hb), Hall, In_seqZ. exact Hb.
  - intros Hall i Hi. apply In_seqZ in Hi. cbv zeta.
    rewrite (to_BYTE_small i) by exact Hi.
    apply Check_Passed, (Equal_Expected_byte _ i Hi), Hall. exact Hi.
Qed.

Lemma TestFormatWord_with_Passed (format : Z -> wstring) :
  TestFormatWord_with format = Passed <->
  forall w, 0 <= w < 256 -> format w = ExpectedFormatWord w.
Proof.
  unfold TestFormatWord_with. cbv zeta.
  change (to_int 65535 + 1) with 65536.
  rewrite for_each_Passed. split.
  - intros Hall w Hw. specialize (Hall w).
    rewrite (to_BYTE_small w Hw) in Hall.
    assert (HW : is_WORD w) by (unfold is_WORD; lia).
    rewrite (to_WORD_small w HW), Check_Passed in Hall.
    apply (Equal_Expected_word _ w HW), Hall, In_seqZ. lia.
  - intros Hall i Hi.
    assert (Hb : 0 <= to_BYTE i < 256)
      by (unfold to_BYTE; apply Z.mod_pos_bound; lia).
    assert (HW : is_WORD (to_BYTE i)) by (unfold is_WORD; lia).
    rewrite (to_WORD_small _ HW).
    apply Check_Passed, (Equal_Expected_word _ _ HW), Hall. exact Hb.
Qed.

(** X11: [TestFormatByte] is exhaustive.  With any formatter in the place
    of [FormatByte] the test runs to its end exactly when that formatter
    gives the reference text for every byte; and with [FormatByte] itself
    the test passes. *)
Theorem TestFormatByte_exhaustive :
  (forall format : Z -> wstring,
     TestFormatByte_with format = Passed <->
     forall b, is_BYTE b -> format b = ExpectedFormatByte b) /\
  TestFormatByte = Passed.
Proof.
  split; [apply TestFormatByte_with_Passed |].
  apply TestFormatByte_with_Passed. intros b Hb.
  unfold ExpectedFormatByte, CString_Format. now rewrite wprintf_02X.
Qed.

(** X12: [TestFormatWord] only looks at the words below 256, because it
    casts its counter to [BYTE].  With any formatter in the place of
    [FormatWord] the test runs to its end exactly when that formatter
    gives the reference text for the words 0 to 255; [FormatWord] passes,
    and so does a formatter that drops the high byte of every word. *)
Theorem TestFormatWord_covers_low_bytes_only :
  (forall format : Z -> wstring,
     TestFormatWord_with format = Passed <->
     forall w, 0 <= w < 256 -> format w = ExpectedFormatWord w) /\
  TestFormatWord = Passed /\
  TestFormatWord_with (fun w => FormatWord (Z.land w 0x00FF)) = Passed /\
  FormatWord (Z.land 0x1234 0x00FF) <> FormatWord 0x1234.
Proof.
  split; [apply TestFormatWord_with_Passed |].
  split; [| split; [| discriminate]].
  - apply TestFormatWord_with_Passed. intros w Hw.
    unfold ExpectedFormatWord, CString_Format.
    rewrite wprintf_04X; [reflexivity | unfold is_WORD; lia].
  - apply TestFormatWord_with_Passed. intros w Hw.
    unfold ExpectedFormatWord, CString_Format.
    rewrite wprintf_04X by (unfold is_WORD; lia). f_equal.
    change 0x00FF with (Z.ones 8). rewrite Z.land_ones by lia.
    change (2 ^ 8) with 256. apply Z.mod_small. exact Hw.
Qed.

(** ** The remaining tests and [main] *)

Lemma TestFormatByte_Passed : TestFormatByte = Passed.
Proof.
  apply TestFormatByte_with_Passed. intros b Hb.
  unfold ExpectedFormatByte, CString_Format. now rewrite wprintf_02X.
Qed.

Lemma TestFormatWord_Passed : TestFormatWord = Passed.
Proof.
  apply TestFormatWord_with_Passed. intros w Hw.
  unfold ExpectedFormatWord, CString_Format.
  rewrite wprintf_04X; [reflexivity | unfold is_WORD; lia].
Qed.

Lemma TestFormatDword_Passed : TestFormatDword = Passed.
Proof. vm_compute. reflexivity. Qed.

Lemma TestFormatHResult_Passed : TestFormatHResult = Passed.
Proof. vm_compute. reflexivity. Qed.

Lemma TestStringPrintf_Passed (p : process) :
  TestStringPrintf p = Some (Passed, p).
Proof.
  unfold TestStringPrintf, calling.
  rewrite (StringPrintf_renders wprintf_text _ _
             (L "Testing StringPrintf Hello 10 0x80070057."));
    [| vm_compute; reflexivity | vm_compute; reflexivity].
  unfold checked. vm_compute. reflexivity.
Qed.

Lemma and_then_Passed (first rest : test_run) (p p' : process) :
  first p = Some (Passed, p') -> and_then first rest p = rest p'.
Proof. intros H. unfold and_then. now rewrite H. Qed.

Lemma TestLoadStringResource_run (IDS_TEST_STRING hExecutable : Z)
    (p : process) :
  TestLoadStringResource IDS_TEST_STRING hExecutable p =
  Some (match string_table p !! (hExecutable, IDS_TEST_STRING) with
        | Some text =>
            Check (Equal text text)
              "LoadStringResource result differs from expected result."
        | None => Passed
        end, p).
Proof.
  unfold TestLoadStringResource, calling, CString_LoadString, checked.
  rewrite LoadStringResource_returns.
  destruct (string_table p !! (hExecutable, IDS_TEST_STRING)) as [text |];
    reflexivity.
Qed.

Lemma Check_not_Passed (condition : bool) (message : string) :
  Check condition message <> Passed -> Check condition message = Threw message.
Proof. destruct condition; cbn; congruence. Qed.

(** X13: [TestLoadStringResource] compares two readings of the same
    table entry, so it cannot tell a missing string from a present one:
    it runs to its end when the string is missing, and when it is present
    exactly if the stored text holds no NUL unit; it leaves the process
    as it found it. *)
Theorem TestLoadStringResource_verdict
    (IDS_TEST_STRING hExecutable : Z) (p : process) :
  (forall text,
     string_table p !! (hExecutable, IDS_TEST_STRING) = Some text ->
     Z.of_nat (length text) <= 65535) ->
  (string_table p !! (hExecutable, IDS_TEST_STRING) = None ->
   TestLoadStringResource IDS_TEST_STRING hExecutable p = Some (Passed, p)) /\
  (forall text,
     string_table p !! (hExecutable, IDS_TEST_STRING) = Some text ->
     (TestLoadStringResource IDS_TEST_STRING hExecutable p = Some (Passed, p)
      <-> ~ In NUL text) /\
     (In NUL text ->
      TestLoadStringResource IDS_TEST_STRING hExecutable p =
      Some (Threw "LoadStringResource result differs from expected result.",
            p))).
Proof.
  intros Hlen. rewrite TestLoadStringResource_run. split.
  - now intros ->.
  - intros text Ht. rewrite Ht.
    assert (Heq : Equal text text = true <-> ~ In NUL text).
    { rewrite Equal_characterised
        by (specialize (Hlen text Ht); unfold INT_MAX; lia).
      tauto. }
    split; [split |].
    + intros [= Hc]. apply Check_Passed in Hc. now apply Heq.
    + intros Hno. do 2 f_equal. now apply Check_Passed, Heq.
    + intros Hin. do 2 f_equal. apply Check_not_Passed.
      rewrite Check_Passed, Heq. tauto.
Qed.

Lemma TestLoadStringResource_verdict_witness :
  TestLoadStringResource 101 0x400000 sample_process =
    Some (Passed, sample_process) /\
  TestLoadStringResource 999 0x400000 sample_process =
    Some (Passed, sample_process).
Proof.
  assert (Hlen : forall id text,
            string_table sample_process !! (0x400000, id) = Some text ->
            Z.of_nat (length text) <= 65535).
  { intros id text. cbn [sample_process string_table].
    destruct (decide (id = 101)) as [-> | H1].
    - rewrite lookup_insert_eq. intros [= <-]. vm_compute. discriminate.
    - rewrite lookup_insert_ne by congruence.
      destruct (decide (id = 102)) as [-> | H2].
      + rewrite lookup_insert_eq. intros [= <-]. vm_compute. discriminate.
      + rewrite lookup_insert_ne by congruence. now rewrite lookup_empty. }
  split.
  - destruct (TestLoadStringResource_verdict 101 0x400000 sample_process
                (Hlen 101)) as [_ Hhit].
    apply (Hhit (L "Test string")); [vm_compute; reflexivity |].
    vm_compute. intuition discriminate.
  - destruct (TestLoadStringResource_verdict 999 0x400000 sample_process
                (Hlen 999)) as [Hmiss _].
    apply Hmiss. vm_compute. reflexivity.
Defined.

Lemma checked_Passed (test : test_outcome) (p : process) :
  test = Passed -> checked test p = Some (Passed, p).
Proof. now intros ->. Qed.

(** All the tests before the last one pass, whatever the process. *)
Lemma all_tests_run (IDS_TEST_STRING hExecutable : Z) (p : process) :
  all_tests IDS_TEST_STRING hExecutable p =
  TestLoadStringResource IDS_TEST_STRING hExecutable p.
Proof.
  unfold all_tests.
  etransitivity;
    [apply (and_then_Passed _ _ p p), checked_Passed, TestFormatByte_Passed |].
  etransitivity;
    [apply (and_then_Passed _ _ p p), checked_Passed, TestFormatWord_Passed |].
  etransitivity;
    [apply (and_then_Passed _ _ p p), checked_Passed, TestFormatDword_Passed |].
  etransitivity;
    [apply (and_then_Passed _ _ p p), checked_Passed,
       TestFormatHResult_Passed |].
  apply (and_then_Passed _ _ p p), TestStringPrintf_Passed.
Qed.

(** X14: the test program ends with [kExitOk] exactly when the test
    string of the executable is missing or holds no NUL unit, and with
    [kExitError] otherwise: every other test of the suite passes. *)
Theorem main_exit_code (IDS_TEST_STRING hExecutable : Z) (p : process) :
  (forall text,
     string_table p !! (hExecutable, IDS_TEST_STRING) = Some text ->
     Z.of_nat (length text) <= 65535) ->
  (main IDS_TEST_STRING hExecutable p = Some kExitOk \/
   main IDS_TEST_STRING hExecutable p = Some kExitError) /\
  (main IDS_TEST_STRING hExecutable p = Some kExitOk <->
   forall text,
     string_table p !! (hExecutable, IDS_TEST_STRING) = Some text ->
     ~ In NUL text).
Proof.
  intros Hlen. unfold main. rewrite all_tests_run.
  rewrite TestLoadStringResource_run.
  destruct (string_table p !! (hExecutable, IDS_TEST_STRING))
    as [text |] eqn:Ht.
  - assert (Heq : Equal text text = true <-> ~ In NUL text).
    { rewrite Equal_characterised
        by (specialize (Hlen text eq_refl); unfold INT_MAX; lia).
      tauto. }
    destruct (Equal text text) eqn:He; cbn.
    + split; [now left |]. split; [| reflexivity].
      intros _ text' [= <-]. now apply Heq.
    + split; [now right |]. split; [discriminate |].
      intros Hno. specialize (Hno text eq_refl). apply Heq in Hno.
      discriminate.
  - cbn. split; [now left |]. split; [| reflexivity]. intros _ text' [=].
Qed.

Lemma main_exit_code_witness :
  main 101 0x400000 sample_process = Some kExitOk.
Proof.
  assert (Hlen : forall text,
            string_table sample_process !! (0x400000, 101) = Some text ->
            Z.of_nat (length text) <= 65535).
  { intros text. cbn [sample_process string_table].
    rewrite lookup_insert_eq. intros [= <-]. vm_compute. discriminate. }
  destruct (main_exit_code 101 0x400000 sample_process Hlen) as [_ Hok].
  apply Hok. clear Hok Hlen. intros text. cbn [sample_process string_table].
  rewrite lookup_insert_eq. intros [= <-]. vm_compute. intuition discriminate.
Defined.
